(** * claude-autopilot.py: the auto-responder over a child process

    A shallow embedding of [ClaudeAutoPilot] from
    [claude-scripts/archive/claude-autopilot.py].

    The script spawns [claude code] with piped streams, starts a daemon
    thread ([auto_respond]) writing ["1\n"] to the child every two seconds,
    and reads the child's output line by line in the main thread
    ([start_claude]), writing ["1\n"] again whenever a line holds one of
    five prompts.  SIGINT runs [signal_handler].

    The two threads and the child are modelled as a labelled transition
    system over one shared [state]: every transition is an executable
    function [state -> option state], and the scheduler is a list of
    [action]s.  Everything the script sends to the outside (terminal,
    child's stdin, signals, sleeps) is appended to the state's [trace].

    The threads interleave statement by statement.  Two statements are cut
    in two, because the child or an interrupt can come in between: the
    launch of line 49 (the fork inside [Popen], then the assignment to
    [self.process]) and the guarded write of the responder (the poll of
    line 30, then the write of line 32). *)

From Stdlib Require Import String Ascii List Bool Arith NArith ZArith Lia.
Import ListNotations.
Local Open Scope string_scope.

(** ** Python strings

    A [str] is modelled by the Rocq string of its UTF-8 bytes.  Case folding
    is that of the 7-bit letters, of which the five prompts are made; bytes
    above 127 are left alone by [lower].  White space is Python's, in its
    UTF-8 encoding. *)

Module PyStr.

Definition newline : string := String (ascii_of_nat 10) EmptyString.

(** [c.lower()] on one character. *)
Definition lower_char (c : ascii) : ascii :=
  let n := N_of_ascii c in
  if ((65 <=? n) && (n <=? 90))%N then ascii_of_N (n + 32) else c.

(** [s.lower()] *)
Fixpoint lower (s : string) : string :=
  match s with
  | EmptyString => EmptyString
  | String c s' => String (lower_char c) (lower s')
  end.

(** [c.isspace()] for a character of one byte: tab, line feed, vertical
    tab, form feed, carriage return, the four separators 28..31 and the
    blank. *)
Definition isspace (c : ascii) : bool :=
  let n := N_of_ascii c in
  (((9 <=? n) && (n <=? 13)) || ((28 <=? n) && (n <=? 32)))%N.

(** [c.isspace()] for a character of two bytes [a b]: U+0085 and U+00A0. *)
Definition isspace2 (a b : ascii) : bool :=
  let x := N_of_ascii a in
  let y := N_of_ascii b in
  ((x =? 194) && ((y =? 133) || (y =? 160)))%N.

(** [c.isspace()] for a character of three bytes [a b c]: U+1680,
    U+2000..U+200A, U+2028, U+2029, U+202F, U+205F and U+3000. *)
Definition isspace3 (a b c : ascii) : bool :=
  let x := N_of_ascii a in
  let y := N_of_ascii b in
  let z := N_of_ascii c in
  (((x =? 225) && (y =? 154) && (z =? 128)) ||
   ((x =? 226) && (y =? 128) &&
    (((128 <=? z) && (z <=? 138)) || (z =? 168) || (z =? 169) ||
     (z =? 175))) ||
   ((x =? 226) && (y =? 129) && (z =? 159)) ||
   ((x =? 227) && (y =? 128) && (z =? 128)))%N.

(** Removal of the white space at the head of a text.  With [back] set the
    text is read from its end, so the bytes of a character come last
    first. *)
Fixpoint skip_spaces (back : bool) (s : string) : string :=
  match s with
  | EmptyString => EmptyString
  | String a s1 =>
      if isspace a then skip_spaces back s1
      else
        match s1 with
        | EmptyString => s
        | String b s2 =>
            if (if back then isspace2 b a else isspace2 a b)
            then skip_spaces back s2
            else
              match s2 with
              | EmptyString => s
              | String c s3 =>
                  if (if back then isspace3 c b a else isspace3 a b c)
                  then skip_spaces back s3
                  else s
              end
        end
  end.

(** The bytes of [s] in reverse order, in front of [acc]. *)
Fixpoint reverse_onto (s acc : string) : string :=
  match s with
  | EmptyString => acc
  | String c s' => reverse_onto s' (String c acc)
  end.

Definition reverse (s : string) : string := reverse_onto s EmptyString.

(** [s.lstrip()] *)
Definition lstrip (s : string) : string := skip_spaces false s.

(** [s.rstrip()] *)
Definition rstrip (s : string) : string :=
  reverse (skip_spaces true (reverse s)).

(** [s.strip()] *)
Definition strip (s : string) : string := lstrip (rstrip s).

(** [p in s]: [p] occurs in [s] as a contiguous substring. *)
Fixpoint isin (p s : string) : bool :=
  if String.prefix p s then true
  else match s with
       | EmptyString => false
       | String _ s' => isin p s'
       end.

(** Truth value of a string in a condition: [if s:]. *)
Definition truthy (s : string) : bool :=
  match s with EmptyString => false | _ => true end.

End PyStr.
Import PyStr.

(** ** What the script does to the outside world *)

(** The two activities that write to the child's input. *)
Inductive actor := Timer | Scan.

Inductive event :=
| EPrint (s : string)                 (* print(s) on the operator's terminal *)
| EWrite (a : actor) (s : string)     (* process.stdin.write(s) returned *)
| EWriteError (a : actor) (s : string) (* process.stdin.write(s) raised *)
| EFlush (a : actor)                  (* process.stdin.flush() *)
| ESleep (n : nat)                    (* time.sleep(n) *)
| ETerminate.                         (* SIGTERM sent to the child *)

(** The string both activities write: ["1\n"]. *)
Definition RESPONSE : string := "1" ++ newline.

(** The list of line 70..76. *)
Definition prompts : list string :=
  [ "do you want to proceed";
    "continue?";
    "press 1";
    "1)";
    "choose an option" ].

(** [any(prompt in output.lower() for prompt in [...])] *)
Definition any_prompt (output : string) : bool :=
  existsb (fun prompt => isin prompt (lower output)) prompts.

Definition msg_start     : string := "🚀 Starting Claude Code Auto-Pilot...".
Definition msg_will      : string := "📝 Will automatically choose option 1 for all prompts".
Definition msg_ctrlc     : string := "⏹️  Press Ctrl+C to stop".
Definition msg_stopping  : string := newline ++ "🛑 Stopping Claude Auto-Pilot...".
Definition msg_responding : string := "🤖 Auto-responding with option 1...".
(** [f"❌ Error: {e}"] *)
Definition msg_error (e : string) : string := "❌ Error: " ++ e.

(** [process.stdin.write("1\n"); process.stdin.flush()] by activity [a].
    [fault] is [Some e] when the child's input stream cannot be written
    (the write raises an exception whose text is [e]).  The result is the
    events emitted and the exception raised, if any. *)
Definition send_response (a : actor) (fault : option string)
  : list event * option string :=
  match fault with
  | None => ([EWrite a RESPONSE; EFlush a], None)
  | Some e => ([EWriteError a RESPONSE], Some e)
  end.

(** Lines 66..79: the body of the monitor loop for one [readline()] result. *)
Definition handle_output (fault : option string) (output : string)
  : list event * option string :=
  if truthy output then
    if any_prompt output then
      let '(evs, exn) := send_response Scan fault in
      (EPrint (strip output) :: EPrint msg_responding :: evs, exn)
    else ([EPrint (strip output)], None)
  else ([], None).

(** ** The shared state *)

(** What the next [process.stdout.readline()] finds in the pipe: a decoded
    line, or bytes whose decoding raises (a read error with text [e]). *)
Inductive chunk :=
| Line (l : string)
| Bad (e : string).

(** Program points of the main thread ([__main__] and [start_claude]). *)
Inductive main_loc :=
| MStart                      (* lines 40..45: banner, signal.signal *)
| MSpawn                      (* lines 49..56: the call of subprocess.Popen *)
| MAssign                     (* line 49: the assignment to self.process *)
| MThread                     (* lines 59..61: start the responder thread *)
| MLoop                       (* line 64: the while test *)
| MRead                       (* line 65: readline *)
| MBody (output : string)     (* lines 66..79 *)
| MExcept (e : string)        (* lines 81..82 *)
| MFinally (sysexit : bool)   (* lines 83..85; [true]: SystemExit pending *)
| MExit (status : Z).         (* the controlling process has exited *)

(** Program points of the responder thread ([auto_respond]). *)
Inductive timer_loc :=
| TIdle                       (* thread not started *)
| TLoop                       (* line 28: the while test *)
| TBody                       (* line 30: the test of self.process and poll() *)
| TWrite                      (* lines 32..33: write and flush *)
| TSleep                      (* line 34 *)
| TDone.                      (* line 36: break, the thread has returned *)

Record state := mkState {
  (* the ClaudeAutoPilot object *)
  running : bool;                 (* self.running *)
  process : bool;                 (* self.process is not None *)
  (* the child, as the operating system has it *)
  spawn_fault : option string;    (* Some e: Popen(['claude','code']) raises e *)
  alive : bool;                   (* the child exists: poll() is None *)
  sigterm : bool;                 (* SIGTERM has been sent to the child *)
  stdin_fault : option string;    (* Some e: writing the child's stdin raises e *)
  stdout : list chunk;            (* output of the child not yet read *)
  stdout_eof : bool;              (* the child's end of the pipe is closed *)
  (* control *)
  main_pc : main_loc;
  timer_pc : timer_loc;
  (* everything done so far, oldest first *)
  trace : list event
}.

(** [ClaudeAutoPilot()] followed by the call of [start_claude]: lines 15..17
    and 88..89.  [e] tells whether the command can be launched. *)
Definition init (e : option string) : state :=
  {| running := true; process := false;
     spawn_fault := e; alive := false; sigterm := false;
     stdin_fault := None; stdout := []; stdout_eof := false;
     main_pc := MStart; timer_pc := TIdle; trace := [] |}.

Definition emit (evs : list event) (s : state) : state :=
  {| running := running s; process := process s;
     spawn_fault := spawn_fault s; alive := alive s; sigterm := sigterm s;
     stdin_fault := stdin_fault s; stdout := stdout s;
     stdout_eof := stdout_eof s;
     main_pc := main_pc s; timer_pc := timer_pc s;
     trace := trace s ++ evs |}.

Definition goto_main (pc : main_loc) (s : state) : state :=
  {| running := running s; process := process s;
     spawn_fault := spawn_fault s; alive := alive s; sigterm := sigterm s;
     stdin_fault := stdin_fault s; stdout := stdout s;
     stdout_eof := stdout_eof s;
     main_pc := pc; timer_pc := timer_pc s;
     trace := trace s |}.

Definition goto_timer (pc : timer_loc) (s : state) : state :=
  {| running := running s; process := process s;
     spawn_fault := spawn_fault s; alive := alive s; sigterm := sigterm s;
     stdin_fault := stdin_fault s; stdout := stdout s;
     stdout_eof := stdout_eof s;
     main_pc := main_pc s; timer_pc := pc;
     trace := trace s |}.

Definition set_running (b : bool) (s : state) : state :=
  {| running := b; process := process s;
     spawn_fault := spawn_fault s; alive := alive s; sigterm := sigterm s;
     stdin_fault := stdin_fault s; stdout := stdout s;
     stdout_eof := stdout_eof s;
     main_pc := main_pc s; timer_pc := timer_pc s;
     trace := trace s |}.

(** The child side of the state: [a] alive, [t] SIGTERM sent, [f] input
    fault, [o] pending output, [c] output closed. *)
Definition set_child (a t : bool) (f : option string) (o : list chunk)
    (c : bool) (s : state) : state :=
  {| running := running s; process := process s;
     spawn_fault := spawn_fault s; alive := a; sigterm := t;
     stdin_fault := f; stdout := o; stdout_eof := c;
     main_pc := main_pc s; timer_pc := timer_pc s;
     trace := trace s |}.

(** [subprocess.Popen(...)] has forked a fresh live child; the object it
    returns is not yet assigned to [self.process]. *)
Definition spawned (s : state) : state :=
  {| running := running s; process := process s;
     spawn_fault := spawn_fault s; alive := true; sigterm := false;
     stdin_fault := None; stdout := []; stdout_eof := false;
     main_pc := main_pc s; timer_pc := timer_pc s;
     trace := trace s |}.

(** [self.process = ...] *)
Definition set_process (b : bool) (s : state) : state :=
  {| running := running s; process := b;
     spawn_fault := spawn_fault s; alive := alive s; sigterm := sigterm s;
     stdin_fault := stdin_fault s; stdout := stdout s;
     stdout_eof := stdout_eof s;
     main_pc := main_pc s; timer_pc := timer_pc s;
     trace := trace s |}.

(** [if self.process: self.process.terminate()].  [Popen.terminate] sends
    SIGTERM unless the child is already known to have exited. *)
Definition terminate (s : state) : state :=
  if process s && alive s then
    emit [ETerminate]
      (set_child (alive s) true (stdin_fault s) (stdout s) (stdout_eof s) s)
  else s.

(** ** The lifecycle the specification speaks of, read off the state *)

Inductive lifecycle := running_st | stopping | stopped.

Definition session_state (s : state) : lifecycle :=
  if negb (process s && alive s) then stopped
  else if running s && negb (sigterm s) then running_st
  else stopping.

(** ** Transitions *)

(** [signal_handler], lines 19..24, run in the main thread.  [sys.exit(0)]
    raises SystemExit, which [except Exception] does not catch: from inside
    the [try] the [finally] clause runs next, from inside the [finally]
    clause the process exits. *)
Definition signal_handler (s : state) : state :=
  let s1 := emit [EPrint msg_stopping] s in
  let s2 := set_running false s1 in
  let s3 := terminate s2 in
  match main_pc s with
  | MFinally _ | MExit _ => goto_main (MExit 0) s3
  | _ => goto_main (MFinally true) s3
  end.

(** One statement of the main thread.  [None]: the thread cannot move
    (it has exited, or [readline] blocks on an empty open pipe). *)
Definition start_claude_step (s : state) : option state :=
  match main_pc s with
  | MStart =>
      Some (goto_main MSpawn
              (emit [EPrint msg_start; EPrint msg_will; EPrint msg_ctrlc] s))
  | MSpawn =>
      match spawn_fault s with
      | None => Some (goto_main MAssign (spawned s))
      | Some e => Some (goto_main (MExcept e) s)
      end
  | MAssign => Some (goto_main MThread (set_process true s))
  | MThread => Some (goto_main MLoop (goto_timer TLoop s))
  | MLoop =>
      if running s && alive s then Some (goto_main MRead s)
      else Some (goto_main (MFinally false) s)
  | MRead =>
      match stdout s with
      | Line l :: rest =>
          Some (goto_main (MBody l)
                  (set_child (alive s) (sigterm s) (stdin_fault s) rest
                     (stdout_eof s) s))
      | Bad e :: rest =>
          Some (goto_main (MExcept e)
                  (set_child (alive s) (sigterm s) (stdin_fault s) rest
                     (stdout_eof s) s))
      | [] =>
          if stdout_eof s then Some (goto_main (MBody "") s) else None
      end
  | MBody output =>
      let '(evs, exn) := handle_output (stdin_fault s) output in
      match exn with
      | None => Some (goto_main MLoop (emit evs s))
      | Some e => Some (goto_main (MExcept e) (emit evs s))
      end
  | MExcept e =>
      Some (goto_main (MFinally false) (emit [EPrint (msg_error e)] s))
  | MFinally sysexit =>
      Some (goto_main (MExit 0) (terminate s))
  | MExit _ => None
  end.

(** The controlling process is gone, and its threads with it. *)
Definition process_exited (s : state) : bool :=
  match main_pc s with MExit _ => true | _ => false end.

(** One statement of the responder thread.  It is a daemon thread: it does
    not run before it is started nor after the controlling process exits. *)
Definition auto_respond_step (s : state) : option state :=
  if process_exited s then None
  else
    match timer_pc s with
    | TIdle | TDone => None
    | TLoop =>
        if running s then Some (goto_timer TBody s)
        else Some (goto_timer TDone s)
    | TBody =>
        if process s && alive s then Some (goto_timer TWrite s)
        else Some (goto_timer TSleep s)
    | TWrite =>
        let '(evs, exn) := send_response Timer (stdin_fault s) in
        match exn with
        | None => Some (goto_timer TSleep (emit evs s))
        | Some _ => Some (goto_timer TDone (emit evs s))
        end
    | TSleep => Some (goto_timer TLoop (emit [ESleep 2] s))
    end.

(** What the child can do, from the moment it is forked. *)
Inductive env_action :=
| ChildPrints (l : string)     (* the child writes one line of output *)
| ChildGarbles (e : string)    (* the child writes bytes that do not decode *)
| ChildClosesStdout
| ChildClosesStdin (e : string)
| ChildExits.

(** The text of the exception raised when writing to a child that is gone. *)
Definition broken_pipe : string := "[Errno 32] Broken pipe".

Definition env_step (a : env_action) (s : state) : option state :=
  if alive s then
    match a with
    | ChildPrints l =>
        if truthy l && negb (stdout_eof s) then
          Some (set_child true (sigterm s) (stdin_fault s)
                  (stdout s ++ [Line l]) false s)
        else None
    | ChildGarbles e =>
        if stdout_eof s then None
        else Some (set_child true (sigterm s) (stdin_fault s)
                     (stdout s ++ [Bad e]) false s)
    | ChildClosesStdout =>
        Some (set_child true (sigterm s) (stdin_fault s) (stdout s) true s)
    | ChildClosesStdin e =>
        Some (set_child true (sigterm s) (Some e) (stdout s)
                (stdout_eof s) s)
    | ChildExits =>
        Some (set_child false (sigterm s)
                (match stdin_fault s with
                 | None => Some broken_pipe
                 | f => f
                 end)
                (stdout s) true s)
    end
  else None.

Inductive action :=
| AMain                      (* the main thread executes one statement *)
| ATimer                     (* the responder thread executes one statement *)
| ASignal                    (* SIGINT is delivered *)
| AEnv (a : env_action).

(** The status with which the interpreter ends on a KeyboardInterrupt that
    nothing catches: it raises SIGINT on itself, which the shell reports as
    130 (before Python 3.8 the status was 1). *)
Definition interrupted_status : Z := 130.

(** SIGINT as long as the controlling process exists.  Before the handler
    is installed (line 45) it raises KeyboardInterrupt outside any [try]:
    the process ends there, with a non-zero status, the traceback of the
    interpreter being no [print] of the script.  Afterwards it runs
    [signal_handler]. *)
Definition signal_step (s : state) : option state :=
  match main_pc s with
  | MStart => Some (goto_main (MExit interrupted_status) s)
  | MExit _ => None
  | _ => Some (signal_handler s)
  end.

Definition exec (a : action) (s : state) : option state :=
  match a with
  | AMain => start_claude_step s
  | ATimer => auto_respond_step s
  | ASignal => signal_step s
  | AEnv e => env_step e s
  end.

(** Execution of a schedule; [None] when some action is not enabled. *)
Fixpoint run (sched : list action) (s : state) : option state :=
  match sched with
  | [] => Some s
  | a :: sched' =>
      match exec a s with
      | Some s' => run sched' s'
      | None => None
      end
  end.

(** States the script can be in. *)
Definition reachable (s : state) : Prop :=
  exists e sched, run sched (init e) = Some s.

(** ** Reading traces *)

(** The strings an activity tried to write to the child's input, whether
    the write returned or raised. *)
Fixpoint write_attempts (a : actor) (evs : list event) : list string :=
  match evs with
  | [] => []
  | EWrite b x :: evs' | EWriteError b x :: evs' =>
      match a, b with
      | Timer, Timer | Scan, Scan => x :: write_attempts a evs'
      | _, _ => write_attempts a evs'
      end
  | _ :: evs' => write_attempts a evs'
  end.

(** The strings that reached the child's input, by either activity. *)
Fixpoint writes (evs : list event) : list string :=
  match evs with
  | [] => []
  | EWrite _ x :: evs' => x :: writes evs'
  | _ :: evs' => writes evs'
  end.

(** What the operator saw on the terminal. *)
Fixpoint printed (evs : list event) : list string :=
  match evs with
  | [] => []
  | EPrint x :: evs' => x :: printed evs'
  | _ :: evs' => printed evs'
  end.

(** An explicit failure message: a line of the form of line 82. *)
Definition is_failure_message (x : string) : bool :=
  String.prefix (msg_error "") x.

Definition failure_messages (evs : list event) : list string :=
  filter is_failure_message (printed evs).

(** ** Case-insensitive occurrence, as the specification words it *)

(** [u] is a capital letter and [l] the matching small one. *)
Definition letter_pair (u l : ascii) : Prop :=
  (65 <= N_of_ascii u <= 90)%N /\ N_of_ascii l = (N_of_ascii u + 32)%N.

(** Two characters that differ at most in case. *)
Definition same_char_ci (a b : ascii) : Prop :=
  a = b \/ letter_pair a b \/ letter_pair b a.

(** Two strings that differ at most in the case of their letters. *)
Inductive same_ci : string -> string -> Prop :=
| same_ci_nil : same_ci "" ""
| same_ci_cons a b x y :
    same_char_ci a b -> same_ci x y -> same_ci (String a x) (String b y).

(** [p] occurs in [line], case-insensitively. *)
Definition occurs_ci (p line : string) : Prop :=
  exists pre mid post, line = pre ++ mid ++ post /\ same_ci mid p.

(** The line holds at least one of the trigger substrings. *)
Definition has_trigger (line : string) : Prop :=
  exists p, In p prompts /\ occurs_ci p line.

(** ** Sample sessions *)

(** A session in full swing: the child is alive and has printed nothing
    yet, the main thread is at [m] and the responder thread at [t]. *)
Definition session (m : main_loc) (t : timer_loc) : state :=
  {| running := true; process := true;
     spawn_fault := None; alive := true; sigterm := false;
     stdin_fault := None; stdout := []; stdout_eof := false;
     main_pc := m; timer_pc := t; trace := [] |}.

(** The same with the child's input stream closed under our feet. *)
Definition session_stdin_closed (m : main_loc) (t : timer_loc) : state :=
  {| running := true; process := true;
     spawn_fault := None; alive := true; sigterm := false;
     stdin_fault := Some broken_pipe; stdout := []; stdout_eof := false;
     main_pc := m; timer_pc := t; trace := [] |}.

(** The same with the child's output stream closed and drained, the child
    still alive. *)
Definition session_stdout_closed (m : main_loc) (t : timer_loc) : state :=
  {| running := true; process := true;
     spawn_fault := None; alive := true; sigterm := false;
     stdin_fault := None; stdout := []; stdout_eof := true;
     main_pc := m; timer_pc := t; trace := [] |}.

(** The child has exited on its own: its pipes are closed. *)
Definition session_child_gone (m : main_loc) (t : timer_loc) : state :=
  {| running := true; process := true;
     spawn_fault := None; alive := false; sigterm := false;
     stdin_fault := Some broken_pipe; stdout := []; stdout_eof := true;
     main_pc := m; timer_pc := t; trace := [] |}.

(** The prompt of the specification's scenario. *)
Definition sample_prompt : string := "Continue? (1) yes (2) no" ++ newline.

(** ** Sample schedules *)

(** The main thread up to its first [readline]: banner, spawn, assignment,
    thread start, loop test. *)
Definition boot : list action := [AMain; AMain; AMain; AMain; AMain].

(** The text of the exception raised by [Popen] when [claude] is not
    installed. *)
Definition enoent : string :=
  "[Errno 2] No such file or directory: 'claude'".

(** The command cannot be launched; the main thread runs to its end. *)
Definition sched_spawn_fails : list action := [AMain; AMain; AMain; AMain].

(** The child prints a prompt and closes its input; the main thread reads
    the line, handles it and runs to its end. *)
Definition sched_scan_write_fails : list action :=
  boot ++ [AEnv (ChildPrints sample_prompt);
           AEnv (ChildClosesStdin broken_pipe);
           AMain; AMain; AMain; AMain].

(** The child closes its output and stays alive. *)
Definition sched_stdout_closed : list action :=
  boot ++ [AEnv ChildClosesStdout].

(** The child exits on its own while the main thread waits in [readline]. *)
Definition sched_child_exits : list action :=
  boot ++ [AEnv ChildExits].

(** The main thread is in its monitor loop (lines 64..79). *)
Definition in_monitor_loop (s : state) : bool :=
  match main_pc s with
  | MLoop | MRead | MBody _ => true
  | _ => false
  end.

(** The responder thread has tested [running] and is about to write; the
    main thread meanwhile is interrupted. *)
Definition sched_stop_races_timer : list action :=
  boot ++ [ATimer; ASignal].


(** The main thread has left the [try] block for good. *)
Definition leaving (s : state) : bool :=
  match main_pc s with
  | MFinally _ | MExit _ => true
  | _ => false
  end.

(** Writes the responder thread may still have in hand once [running] is
    false: one if it is between its loop test and its write, none
    otherwise. *)
Definition pending_rounds (s : state) : nat :=
  match timer_pc s with TBody | TWrite => 1 | _ => 0 end.

(** The main thread spins in its loop on a closed, drained output stream
    while the child lives. *)
Definition eof_spin (s : state) : Prop :=
  running s = true /\ alive s = true /\
  stdout s = [] /\ stdout_eof s = true /\
  (main_pc s = MLoop \/ main_pc s = MRead \/ main_pc s = MBody "").

(** The state reached by a schedule (the starting state if the schedule
    cannot be run). *)
Definition after (sched : list action) (s : state) : state :=
  match run sched s with Some s' => s' | None => s end.





(** ** Further readings of states and traces *)

(** Every string handed to [process.stdin.write], by either activity,
    whether the call returned or raised. *)
Fixpoint attempts (evs : list event) : list string :=
  match evs with
  | [] => []
  | EWrite _ x :: evs' | EWriteError _ x :: evs' => x :: attempts evs'
  | _ :: evs' => attempts evs'
  end.

(** Program points at which the main thread can be while [self.process]
    is still [None]. *)
Definition no_child_pc (s : state) : bool :=
  match main_pc s with
  | MStart | MSpawn | MAssign | MExcept _ | MFinally _ | MExit _ => true
  | MThread | MLoop | MRead | MBody _ => false
  end.

(** [n] rounds of the responder loop: loop test, poll, write, sleep. *)
Fixpoint rounds (n : nat) : list action :=
  match n with
  | O => []
  | S n' => ATimer :: ATimer :: ATimer :: ATimer :: rounds n'
  end.

(** What [n] rounds send out when every write succeeds. *)
Fixpoint round_events (n : nat) : list event :=
  match n with
  | O => []
  | S n' => EWrite Timer RESPONSE :: EFlush Timer :: ESleep 2 ::
            round_events n'
  end.

(** [n] turns of the monitor loop: test, [readline], body. *)
Fixpoint turns (n : nat) : list action :=
  match n with
  | O => []
  | S n' => AMain :: AMain :: AMain :: turns n'
  end.

(** What the monitor loop sends out for the lines [ls], read in this
    order, while the child's input can be written. *)
Fixpoint line_events (ls : list string) : list event :=
  match ls with
  | [] => []
  | l :: ls' => (fst (handle_output None l) ++ line_events ls')%list
  end.

(** What the monitor loop owes for the lines [ls], said without the code:
    nothing for an empty result; for any other line its echo, followed, if
    the line holds a trigger, by the announcement, one write of the response
    and a flush; all this line after line. *)
Inductive loop_output : list string -> list event -> Prop :=
| loop_output_nil : loop_output [] []
| loop_output_empty ls evs :
    loop_output ls evs -> loop_output ("" :: ls) evs
| loop_output_prompt l ls evs :
    l <> "" -> has_trigger l -> loop_output ls evs ->
    loop_output (l :: ls)
      (EPrint (strip l) :: EPrint msg_responding ::
       EWrite Scan RESPONSE :: EFlush Scan :: evs)
| loop_output_plain l ls evs :
    l <> "" -> ~ has_trigger l -> loop_output ls evs ->
    loop_output (l :: ls) (EPrint (strip l) :: evs).

(** The child has exited, nothing of its output is left to read, the main
    thread is at a point from which it meets no line any more, and the
    responder thread is not between its poll and its write. *)
Definition quiet (s : state) : bool :=
  negb (alive s) && stdout_eof s &&
  match stdin_fault s with Some _ => true | None => false end &&
  running s &&
  match stdout s with [] => true | _ => false end &&
  match timer_pc s with TWrite => false | _ => true end &&
  match main_pc s with
  | MAssign | MThread | MLoop | MRead | MFinally _ | MExit _ => true
  | MBody output => negb (truthy output)
  | MStart | MSpawn | MExcept _ => false
  end.

(** * Theorems *)

(** ** Strings *)

Section StringFacts.

Lemma append_nil_r (s : string) : s ++ "" = s.
Proof. induction s; simpl; congruence. Qed.

Lemma append_assoc (a b c : string) : (a ++ b) ++ c = a ++ b ++ c.
Proof. induction a; simpl; congruence. Qed.

Lemma prefix_spec (p s : string) :
  String.prefix p s = true <-> exists post, s = p ++ post.
Proof.
  revert s; induction p as [|c p IH]; intros s.
  - split; [intros _; now exists s | intros _; now destruct s].
  - destruct s as [|d s]; simpl.
    + split; [discriminate | intros [post H]; discriminate].
    + destruct (Ascii.ascii_dec c d) as [->|Hne].
      * rewrite IH. split; intros [post H]; exists post.
        -- now subst.
        -- now injection H.
      * split; [discriminate|].
        intros [post H]. injection H as H1 _. congruence.
Qed.

Lemma isin_unfold (p s : string) :
  isin p s =
  if String.prefix p s then true
  else match s with
       | EmptyString => false
       | String _ s' => isin p s'
       end.
Proof. destruct s; reflexivity. Qed.

Lemma isin_spec (p s : string) :
  isin p s = true <-> exists pre post, s = pre ++ p ++ post.
Proof.
  induction s as [|c s IH]; rewrite isin_unfold.
  - destruct (String.prefix p "") eqn:E.
    + split; [intros _|reflexivity].
      apply prefix_spec in E as [post E]. now exists "", post.
    + split; [discriminate|].
      intros [pre [post H]]. destruct pre; simpl in H; [|discriminate].
      assert (String.prefix p "" = true) by (apply prefix_spec; eauto).
      congruence.
  - destruct (String.prefix p (String c s)) eqn:E.
    + split; [intros _|reflexivity].
      apply prefix_spec in E as [post E]. now exists "", post.
    + rewrite IH. split.
      * intros [pre [post H]]. exists (String c pre), post. now subst.
      * intros [pre [post H]]. destruct pre as [|d pre]; simpl in H.
        -- assert (String.prefix p (String c s) = true)
             by (apply prefix_spec; eauto).
           congruence.
        -- injection H as _ H. eauto.
Qed.

Lemma lower_app (a b : string) : lower (a ++ b) = lower a ++ lower b.
Proof. induction a; simpl; congruence. Qed.

Lemma lower_split (s a b : string) :
  lower s = a ++ b ->
  exists s1 s2, s = s1 ++ s2 /\ lower s1 = a /\ lower s2 = b.
Proof.
  revert s; induction a as [|c a IH]; intros s H; simpl in H.
  - now exists "", s.
  - destruct s as [|d s]; simpl in H; [discriminate|].
    injection H as Hc H. apply IH in H as (s1 & s2 & -> & <- & <-).
    exists (String d s1), s2. simpl. now rewrite Hc.
Qed.

Lemma N_of_ascii_inj (a b : ascii) : N_of_ascii a = N_of_ascii b -> a = b.
Proof.
  intros H. rewrite <- (ascii_N_embedding a), <- (ascii_N_embedding b).
  now rewrite H.
Qed.

Lemma N_of_lower_char (c : ascii) :
  N_of_ascii (lower_char c) =
  (if ((65 <=? N_of_ascii c) && (N_of_ascii c <=? 90))%N
   then N_of_ascii c + 32 else N_of_ascii c)%N.
Proof.
  unfold lower_char.
  destruct ((65 <=? N_of_ascii c) && (N_of_ascii c <=? 90))%N eqn:E; auto.
  apply N_ascii_embedding.
  apply andb_true_iff in E as [_ E]. apply N.leb_le in E. lia.
Qed.

Lemma same_char_ci_lower (a b : ascii) :
  same_char_ci a b <-> lower_char a = lower_char b.
Proof.
  split.
  - intros [->|[[Hu Hl]|[Hu Hl]]]; auto; apply N_of_ascii_inj;
      rewrite !N_of_lower_char, Hl;
      repeat match goal with
      | |- context [(?x <=? ?y)%N] => destruct (N.leb_spec x y)
      end; simpl; lia.
  - intros H. apply (f_equal N_of_ascii) in H.
    rewrite !N_of_lower_char in H. unfold same_char_ci, letter_pair.
    destruct (N.leb_spec 65 (N_of_ascii a)), (N.leb_spec (N_of_ascii a) 90),
      (N.leb_spec 65 (N_of_ascii b)), (N.leb_spec (N_of_ascii b) 90);
      simpl in H;
      first [ left; apply N_of_ascii_inj; lia
            | right; left; lia
            | right; right; lia ].
Qed.

Lemma same_ci_lower (x y : string) : same_ci x y <-> lower x = lower y.
Proof.
  split.
  - induction 1 as [|a b x y Hc _ IH]; simpl; auto.
    apply same_char_ci_lower in Hc. congruence.
  - revert y; induction x as [|a x IH]; intros [|b y] H; simpl in H;
      try discriminate; constructor.
    + apply same_char_ci_lower. congruence.
    + apply IH. congruence.
Qed.

(** The prompts are written in small letters. *)
Lemma prompts_lower (p : string) : In p prompts -> lower p = p.
Proof.
  unfold prompts; simpl.
  intros [<-|[<-|[<-|[<-|[<-|[]]]]]]; reflexivity.
Qed.

(** The test of line 70 decides [has_trigger]. *)
Lemma any_prompt_spec (output : string) :
  any_prompt output = true <-> has_trigger output.
Proof.
  unfold any_prompt, has_trigger, occurs_ci. rewrite existsb_exists.
  split.
  - intros (p & Hp & H). exists p. split; auto.
    apply isin_spec in H as (a & b & H).
    apply lower_split in H as (pre & r & -> & <- & H).
    apply lower_split in H as (mid & post & -> & H & <-).
    exists pre, mid, post. split; auto.
    apply same_ci_lower. rewrite H. symmetry. now apply prompts_lower.
  - intros (p & Hp & pre & mid & post & -> & H). exists p. split; auto.
    apply same_ci_lower in H. rewrite (prompts_lower p Hp) in H.
    apply isin_spec. exists (lower pre), (lower post).
    now rewrite !lower_app, H.
Qed.

End StringFacts.

(** ** One line of output (lines 66..79) *)


Lemma start_claude_step_body (s : state) (output : string) :
  main_pc s = MBody output ->
  exists s',
    start_claude_step s = Some s' /\
    trace s' = (trace s ++ fst (handle_output (stdin_fault s) output))%list /\
    timer_pc s' = timer_pc s /\
    main_pc s' = match snd (handle_output (stdin_fault s) output) with
                 | None => MLoop
                 | Some e => MExcept e
                 end.
Proof.
  intros H. unfold start_claude_step. rewrite H.
  destruct (handle_output (stdin_fault s) output) as [evs [e|]];
    eexists; simpl; auto.
Qed.



(** C10. An empty [readline()] result (end of stream) is passed over: nothing
    is printed, nothing is written and the loop goes back to its test.  A
    non-empty line is first of all echoed, stripped. *)
Theorem C10_empty_read_ignored (s : state) (output : string) :
  main_pc s = MBody output ->
  exists s' evs,
    start_claude_step s = Some s' /\
    trace s' = (trace s ++ evs)%list /\
    (output = "" -> evs = [] /\ main_pc s' = MLoop) /\
    (output <> "" -> exists rest, evs = EPrint (strip output) :: rest).
Proof.
  intros H.
  destruct (start_claude_step_body s output H) as (s' & Hs & Ht & _ & Hp).
  exists s', (fst (handle_output (stdin_fault s) output)).
  split; [exact Hs|]. split; [exact Ht|]. split.
  - intros ->. split; [reflexivity | exact Hp].
  - intros Hne. unfold handle_output.
    destruct output as [|c o]; [congruence|]. simpl truthy. cbv iota.
    destruct (any_prompt (String c o)); [|simpl; eauto].
    destruct (send_response Scan (stdin_fault s)); simpl; eauto.
Qed.

Lemma C10_witness :
  exists s' evs,
    start_claude_step (session (MBody "") TSleep) = Some s' /\
    trace s' = (trace (session (MBody "") TSleep) ++ evs)%list /\
    ("" = "" -> evs = [] /\ main_pc s' = MLoop) /\
    ("" <> "" -> exists rest, evs = EPrint (strip "") :: rest).
Proof.
  apply (C10_empty_read_ignored (session (MBody "") TSleep) "").
  reflexivity.
Defined.

(** ** The responder thread (lines 26..36) *)

(** C2. While [running] holds and the child is alive, one round of the
    responder loop (loop test, poll, write, sleep) writes ["1\n"], flushes
    and sleeps 2 seconds, whatever the child has printed, and is back at the
    loop test with nothing else changed.  When the write raises, the thread
    ends at once: nothing is printed, the main thread and [running] are left
    as they were, and the thread takes no further step. *)
Theorem C2_timer_round_and_silent_stop (s : state) :
  process_exited s = false ->
  timer_pc s = TLoop -> running s = true ->
  process s = true -> alive s = true ->
  (stdin_fault s = None ->
   run [ATimer; ATimer; ATimer; ATimer] s =
   Some (goto_timer TLoop
           (emit [EWrite Timer RESPONSE; EFlush Timer; ESleep 2] s))) /\
  (forall e, stdin_fault s = Some e ->
   exists s',
     run [ATimer; ATimer; ATimer] s = Some s' /\
     s' = goto_timer TDone (emit [EWriteError Timer RESPONSE] s) /\
     printed [EWriteError Timer RESPONSE] = [] /\
     main_pc s' = main_pc s /\ running s' = running s /\
     exec ATimer s' = None).
Proof.
  intros Hx Ht Hr Hp Ha.
  destruct s as [r p sf a st f o c m t tr].
  unfold process_exited in Hx. cbn in Hx, Ht, Hr, Hp, Ha. subst.
  split.
  - intros Hf. cbn in Hf. subst f.
    destruct m; try discriminate Hx; cbv -[app RESPONSE];
      now rewrite <- !app_assoc.
  - intros e Hf. cbn in Hf. subst f.
    exists (mkState true true sf true st (Some e) o c m TDone
              (tr ++ [EWriteError Timer RESPONSE])).
    destruct m; try discriminate Hx; repeat split.
Qed.

Lemma C2_witness :
  (stdin_fault (session MRead TLoop) = None ->
   run [ATimer; ATimer; ATimer; ATimer] (session MRead TLoop) =
   Some (goto_timer TLoop
           (emit [EWrite Timer RESPONSE; EFlush Timer; ESleep 2]
              (session MRead TLoop)))) /\
  (forall e, stdin_fault (session MRead TLoop) = Some e ->
   exists s',
     run [ATimer; ATimer; ATimer] (session MRead TLoop) = Some s' /\
     s' = goto_timer TDone
            (emit [EWriteError Timer RESPONSE] (session MRead TLoop)) /\
     printed [EWriteError Timer RESPONSE] = [] /\
     main_pc s' = main_pc (session MRead TLoop) /\
     running s' = running (session MRead TLoop) /\
     exec ATimer s' = None).
Proof.
  apply (C2_timer_round_and_silent_stop (session MRead TLoop));
    reflexivity.
Defined.

(** C9. The responder thread writes before it sleeps: once the main thread
    has started it (line 61), it tests [running], polls the child, writes
    ["1\n"] and flushes, and only then sleeps for the first time. *)
Theorem C9_first_write_before_first_sleep (s : state) :
  main_pc s = MThread -> running s = true ->
  process s = true -> alive s = true -> stdin_fault s = None ->
  exists s1,
    exec AMain s = Some s1 /\
    timer_pc s1 = TLoop /\ trace s1 = trace s /\
    run [ATimer; ATimer] s1 = Some (goto_timer TWrite s1) /\
    run [ATimer; ATimer; ATimer] s1 =
      Some (goto_timer TSleep
              (emit [EWrite Timer RESPONSE; EFlush Timer] s1)) /\
    run [ATimer; ATimer; ATimer; ATimer] s1 =
      Some (goto_timer TLoop
              (emit [EWrite Timer RESPONSE; EFlush Timer; ESleep 2] s1)).
Proof.
  intros Hm Hr Hp Ha Hf.
  destruct s as [r p sf a st f o c m t tr].
  simpl in Hm, Hr, Hp, Ha, Hf; subst.
  exists (goto_main MLoop
            (goto_timer TLoop
               (mkState true true sf true st None o c MThread t tr))).
  split; [reflexivity|].
  split; [reflexivity|]. split; [reflexivity|]. split; [reflexivity|].
  split; [reflexivity|].
  cbv -[app]. now rewrite <- !app_assoc.
Qed.

Lemma C9_witness :
  exists s1,
    exec AMain (session MThread TIdle) = Some s1 /\
    timer_pc s1 = TLoop /\ trace s1 = trace (session MThread TIdle) /\
    run [ATimer; ATimer] s1 = Some (goto_timer TWrite s1) /\
    run [ATimer; ATimer; ATimer] s1 =
      Some (goto_timer TSleep
              (emit [EWrite Timer RESPONSE; EFlush Timer] s1)) /\
    run [ATimer; ATimer; ATimer; ATimer] s1 =
      Some (goto_timer TLoop
              (emit [EWrite Timer RESPONSE; EFlush Timer; ESleep 2] s1)).
Proof.
  apply (C9_first_write_before_first_sleep (session MThread TIdle));
    reflexivity.
Defined.

(** ** Failure messages *)

Lemma is_failure_message_error (e : string) :
  is_failure_message (msg_error e) = true.
Proof. apply prefix_spec. now exists e. Qed.

Lemma failure_messages_error (e : string) :
  failure_messages [EPrint (msg_error e)] = [msg_error e].
Proof.
  unfold failure_messages. cbn [printed filter].
  now rewrite is_failure_message_error.
Qed.

Lemma printed_app (a b : list event) :
  printed (a ++ b) = (printed a ++ printed b)%list.
Proof.
  induction a as [|[] a IH]; simpl; auto. now rewrite IH.
Qed.

Lemma failure_messages_app (a b : list event) :
  failure_messages (a ++ b) =
  (failure_messages a ++ failure_messages b)%list.
Proof.
  unfold failure_messages. now rewrite printed_app, filter_app.
Qed.

(** ** Launch failure (lines 47..56, 81..85) *)

(** C4 as stated fails: [claude] is not installed, and the controlling
    process ends with status 0, not with a non-zero one. *)
Lemma C4_counterexample :
  exists s,
    run sched_spawn_fails (init (Some enoent)) = Some s /\
    main_pc s = MExit 0 /\
    ~ (exists status, main_pc s = MExit status /\ status <> 0%Z).
Proof.
  eexists. split; [vm_compute; reflexivity|]. split; [reflexivity|].
  intros (status & H & Hne). simpl in H. congruence.
Qed.

(** C4, amended. When the command cannot be launched, the exception is
    caught inside [start_claude]: after the banner the operator reads the
    one line ["❌ Error: "] followed by the text of the exception, no child
    and no responder thread exist, nothing is sent to any child, and the
    controlling process ends with status 0. *)
Theorem C4_spawn_failure_reported_exit_zero (e : string) :
  exists s,
    run sched_spawn_fails (init (Some e)) = Some s /\
    main_pc s = MExit 0 /\
    trace s = [EPrint msg_start; EPrint msg_will; EPrint msg_ctrlc;
               EPrint (msg_error e)] /\
    failure_messages (trace s) = [msg_error e] /\
    process s = false /\ timer_pc s = TIdle.
Proof.
  eexists. split; [reflexivity|].
  split; [reflexivity|]. split; [reflexivity|].
  split; [|split; reflexivity].
  transitivity
    (failure_messages
       ([EPrint msg_start; EPrint msg_will; EPrint msg_ctrlc] ++
        [EPrint (msg_error e)])); [reflexivity|].
  now rewrite failure_messages_app, failure_messages_error.
Qed.

(** ** Write failures *)

(** C6 as stated fails: the child closes its input after a prompt; the
    write of line 78 raises and the operator reads a failure message. *)
Lemma C6_counterexample :
  exists s,
    run sched_scan_write_fails (init None) = Some s /\
    write_attempts Scan (trace s) = [RESPONSE] /\
    writes (trace s) = [] /\
    failure_messages (trace s) = [msg_error broken_pipe].
Proof.
  eexists. split; [vm_compute; reflexivity|]. repeat split.
Qed.

(** C6, amended. A write failure never escapes as an uncaught exception,
    but the two activities treat it differently.  In the responder thread
    it ends the thread alone: nothing is printed, nothing is sent to the
    child, [running] and the main thread stay as they are.  In the monitor
    loop it is caught by line 81: the operator reads ["❌ Error: "] and the
    text of the exception, the child is sent SIGTERM if it is still alive
    (and only then), and the controlling process ends with status 0. *)
Theorem C6_write_failure_handling (s : state) (e : string) :
  stdin_fault s = Some e ->
  (process_exited s = false -> timer_pc s = TWrite ->
   exec ATimer s =
     Some (goto_timer TDone (emit [EWriteError Timer RESPONSE] s)) /\
   failure_messages [EWriteError Timer RESPONSE] = []) /\
  (forall output, main_pc s = MBody output -> has_trigger output ->
   exists s',
     run [AMain; AMain; AMain] s = Some s' /\
     main_pc s' = MExit 0 /\
     running s' = running s /\
     trace s' = (trace s ++
                 [EPrint (strip output); EPrint msg_responding;
                  EWriteError Scan RESPONSE; EPrint (msg_error e)] ++
                 (if process s && alive s then [ETerminate] else []))%list /\
     failure_messages [EPrint (msg_error e)] = [msg_error e]).
Proof.
  intros Hf. split.
  - intros Hx Ht. split; [|reflexivity].
    unfold exec, auto_respond_step. now rewrite Hx, Ht, Hf.
  - intros output Hm Ht. apply any_prompt_spec in Ht.
    assert (Hh : handle_output (Some e) output =
                 ([EPrint (strip output); EPrint msg_responding;
                   EWriteError Scan RESPONSE], Some e)).
    { unfold handle_output. destruct output as [|c o]; [discriminate|].
      simpl truthy. cbv iota. now rewrite Ht. }
    destruct s as [r p sf a st f o c m t tr].
    simpl in Hf, Hm; subst.
    exists (mkState r p sf a (st || (p && a)) (Some e) o c (MExit 0) t
              (tr ++ [EPrint (strip output); EPrint msg_responding;
                      EWriteError Scan RESPONSE; EPrint (msg_error e)] ++
                     (if p && a then [ETerminate] else []))).
    split; [|repeat split; apply failure_messages_error].
    cbn [run exec]. unfold start_claude_step at 1.
    cbn [main_pc stdin_fault]. rewrite Hh.
    destruct p, a, st;
      cbv -[app strip msg_error msg_responding RESPONSE];
      now rewrite <- ?app_assoc, ?app_nil_r.
Qed.

Lemma C6_witness :
  (process_exited (session_child_gone (MBody sample_prompt) TWrite) = false ->
   timer_pc (session_child_gone (MBody sample_prompt) TWrite) = TWrite ->
   exec ATimer (session_child_gone (MBody sample_prompt) TWrite) =
     Some (goto_timer TDone
             (emit [EWriteError Timer RESPONSE]
                (session_child_gone (MBody sample_prompt) TWrite))) /\
   failure_messages [EWriteError Timer RESPONSE] = []) /\
  (forall output,
   main_pc (session_child_gone (MBody sample_prompt) TWrite) = MBody output ->
   has_trigger output ->
   exists s',
     run [AMain; AMain; AMain]
       (session_child_gone (MBody sample_prompt) TWrite) = Some s' /\
     main_pc s' = MExit 0 /\
     running s' = running (session_child_gone (MBody sample_prompt) TWrite) /\
     trace s' = (trace (session_child_gone (MBody sample_prompt) TWrite) ++
                 [EPrint (strip output); EPrint msg_responding;
                  EWriteError Scan RESPONSE; EPrint (msg_error broken_pipe)] ++
                 (if process (session_child_gone (MBody sample_prompt) TWrite)
                     && alive (session_child_gone (MBody sample_prompt) TWrite)
                  then [ETerminate] else []))%list /\
     failure_messages [EPrint (msg_error broken_pipe)] =
       [msg_error broken_pipe]).
Proof.
  apply (C6_write_failure_handling
           (session_child_gone (MBody sample_prompt) TWrite) broken_pipe).
  reflexivity.
Defined.

(** ** End of stream and read errors (lines 64..67) *)

Lemma eof_spin_step (s : state) :
  eof_spin s ->
  exists s',
    exec AMain s = Some s' /\ eof_spin s' /\ trace s' = trace s /\
    session_state s' = session_state s.
Proof.
  intros (Hr & Ha & Ho & Hc & Hm).
  destruct s as [r p sf a st f o c m t tr].
  simpl in Hr, Ha, Ho, Hc, Hm; subst.
  unfold eof_spin.
  destruct Hm as [ -> | [ -> | -> ] ]; eexists; (split; [reflexivity|]);
    cbn; rewrite ?app_nil_r; auto 10.
Qed.

Lemma eof_spin_forever (n : nat) (s : state) :
  eof_spin s ->
  exists s',
    run (repeat AMain n) s = Some s' /\ eof_spin s' /\ trace s' = trace s /\
    session_state s' = session_state s.
Proof.
  revert s; induction n as [|n IH]; intros s H.
  - exists s. split; [reflexivity|]. split; [exact H|]. split; reflexivity.
  - destruct (eof_spin_step s H) as (s1 & E1 & H1 & T1 & L1).
    destruct (IH s1 H1) as (s' & E & H' & T & L).
    exists s'. cbn [repeat run]. rewrite E1.
    split; [exact E|]. split; [exact H'|]. split; congruence.
Qed.

Lemma eof_spin_in_loop (s : state) :
  eof_spin s -> in_monitor_loop s = true.
Proof.
  intros (_ & _ & _ & _ & Hm). unfold in_monitor_loop.
  destruct Hm as [ -> | [ -> | -> ] ]; auto.
Qed.

(** C8 as stated fails: the child closes its output and lives on; the main
    thread is back at [readline] every three statements, for ever, and the
    session stays in its running state. *)
Lemma C8_counterexample :
  exists s,
    run sched_stdout_closed (init None) = Some s /\
    main_pc s = MRead /\ stdout s = [] /\ stdout_eof s = true /\
    run [AMain; AMain; AMain] s = Some s /\
    forall n, exists s',
      run (repeat AMain n) s = Some s' /\
      in_monitor_loop s' = true /\ session_state s' = running_st.
Proof.
  eexists. split; [vm_compute; reflexivity|].
  repeat (split; [reflexivity|]).
  intros n.
  match goal with |- exists s', run _ ?s = _ /\ _ =>
    assert (H : eof_spin s) by (unfold eof_spin; cbn; auto 10);
    destruct (eof_spin_forever n s H) as (s' & E & H' & _ & L)
  end.
  exists s'. split; [exact E|]. split; [now apply eof_spin_in_loop|].
  rewrite L. reflexivity.
Qed.

(** C8, amended. A read error ends the monitor loop: it is reported as
    ["❌ Error: ..."], the child is sent SIGTERM if it is still alive, and
    the controlling process ends with status 0.  End of stream by itself
    does not: the empty result is passed over and the loop test is made
    again.  The loop then ends if the child has exited (or [running] is
    cleared); as long as the child lives it reads again, for ever, without
    printing or writing anything. *)
Theorem C8_read_error_ends_eof_retests (s : state) :
  main_pc s = MRead ->
  (forall e rest, stdout s = Bad e :: rest ->
   exists s',
     run [AMain; AMain; AMain] s = Some s' /\
     main_pc s' = MExit 0 /\
     trace s' = (trace s ++ EPrint (msg_error e) ::
                 (if process s && alive s then [ETerminate] else []))%list) /\
  (stdout s = [] -> stdout_eof s = true ->
   (running s && alive s = false ->
    exists s',
      run [AMain; AMain; AMain; AMain] s = Some s' /\
      main_pc s' = MExit 0 /\
      trace s' = (trace s ++
                  (if process s && alive s then [ETerminate] else []))%list) /\
   (running s && alive s = true ->
    run [AMain; AMain; AMain] s = Some s /\
    forall n, exists s',
      run (repeat AMain n) s = Some s' /\
      in_monitor_loop s' = true /\ trace s' = trace s)).
Proof.
  intros Hm. split.
  - intros e rest Ho.
    destruct s as [r p sf a st f o c m t tr]. simpl in Hm, Ho; subst.
    eexists. split; [reflexivity|]. split.
    + destruct p, a; reflexivity.
    + destruct p, a; cbv -[app msg_error]; now rewrite <- ?app_assoc.
  - intros Ho Hc. split.
    + intros Hra.
      destruct s as [r p sf a st f o c m t tr]. simpl in Hm, Ho, Hc, Hra; subst.
      eexists. split; [cbn; rewrite Hra; reflexivity|]. split.
      * destruct p, a; reflexivity.
      * destruct p, a; cbv -[app]; now rewrite <- ?app_assoc, ?app_nil_r.
    + intros Hra. apply andb_true_iff in Hra as [Hr Ha].
      assert (H : eof_spin s) by (unfold eof_spin; auto 10).
      split.
      * destruct s as [r p sf a st f o c m t tr].
        simpl in Hm, Ho, Hc, Hr, Ha; subst.
        cbv -[app]. now rewrite app_nil_r.
      * intros n.
        destruct (eof_spin_forever n s H) as (s' & E & H' & T & _).
        exists s'. split; [exact E|]. split; [|exact T].
        now apply eof_spin_in_loop.
Qed.

Lemma C8_witness :
  (forall e rest, stdout (session_stdout_closed MRead TLoop) = Bad e :: rest ->
   exists s',
     run [AMain; AMain; AMain] (session_stdout_closed MRead TLoop) = Some s' /\
     main_pc s' = MExit 0 /\
     trace s' = (trace (session_stdout_closed MRead TLoop) ++ EPrint (msg_error e) ::
                 (if process (session_stdout_closed MRead TLoop) &&
                     alive (session_stdout_closed MRead TLoop)
                  then [ETerminate] else []))%list) /\
  (stdout (session_stdout_closed MRead TLoop) = [] ->
   stdout_eof (session_stdout_closed MRead TLoop) = true ->
   (running (session_stdout_closed MRead TLoop) && alive (session_stdout_closed MRead TLoop) = false ->
    exists s',
      run [AMain; AMain; AMain; AMain] (session_stdout_closed MRead TLoop) = Some s' /\
      main_pc s' = MExit 0 /\
      trace s' = (trace (session_stdout_closed MRead TLoop) ++
                  (if process (session_stdout_closed MRead TLoop) &&
                      alive (session_stdout_closed MRead TLoop)
                   then [ETerminate] else []))%list) /\
   (running (session_stdout_closed MRead TLoop) && alive (session_stdout_closed MRead TLoop) = true ->
    run [AMain; AMain; AMain] (session_stdout_closed MRead TLoop) =
      Some (session_stdout_closed MRead TLoop) /\
    forall n, exists s',
      run (repeat AMain n) (session_stdout_closed MRead TLoop) = Some s' /\
      in_monitor_loop s' = true /\ trace s' = trace (session_stdout_closed MRead TLoop))).
Proof.
  apply (C8_read_error_ends_eof_retests (session_stdout_closed MRead TLoop)).
  reflexivity.
Defined.

(** ** The interrupt handler (lines 19..24) *)

(** C7 as stated fails: on a session whose child has exited on its own the
    handler clears [running] and prints its banner; run once more it prints
    the banner again and exits the controlling process. *)
Lemma C7_counterexample :
  exists s s' s'',
    run sched_child_exits (init None) = Some s /\
    session_state s = stopped /\
    exec ASignal s = Some s' /\
    running s = true /\ running s' = false /\
    trace s' = (trace s ++ [EPrint msg_stopping])%list /\
    main_pc s = MRead /\ main_pc s' = MFinally true /\
    session_state s' = stopped /\
    exec ASignal s' = Some s'' /\
    trace s'' = (trace s' ++ [EPrint msg_stopping])%list /\
    main_pc s'' = MExit 0.
Proof.
  do 3 eexists. split; [vm_compute; reflexivity|].
  split; [reflexivity|]. split; [vm_compute; reflexivity|].
  do 6 (split; [reflexivity|]).
  split; [vm_compute; reflexivity|]. split; reflexivity.
Qed.

(** C7, amended. Run on a session that is already stopped (no child, or a
    child that has exited), [signal_handler] does nothing to the child: no
    signal is sent and the child's side of the state is untouched.  It is
    not a no-op, though: it prints the stopping banner, leaves [running]
    false and makes the controlling process exit with status 0, through the
    [finally] clause when it interrupts the [try] block.  Run a second time
    it prints the banner again and exits at once. *)
Theorem C7_stop_on_stopped_session (s : state) :
  session_state s = stopped ->
  alive (signal_handler s) = alive s /\
  sigterm (signal_handler s) = sigterm s /\
  stdin_fault (signal_handler s) = stdin_fault s /\
  stdout (signal_handler s) = stdout s /\
  stdout_eof (signal_handler s) = stdout_eof s /\
  process (signal_handler s) = process s /\
  timer_pc (signal_handler s) = timer_pc s /\
  trace (signal_handler s) = (trace s ++ [EPrint msg_stopping])%list /\
  running (signal_handler s) = false /\
  (main_pc (signal_handler s) = MFinally true \/
   main_pc (signal_handler s) = MExit 0) /\
  signal_handler (signal_handler s) =
    goto_main (MExit 0) (emit [EPrint msg_stopping] (signal_handler s)).
Proof.
  unfold session_state. intros H.
  destruct (process s && alive s) eqn:E;
    [simpl in H; destruct (running s && negb (sigterm s)); discriminate|].
  clear H.
  destruct s as [r p sf a st f o c m t tr]. simpl in E.
  unfold signal_handler, terminate.
  cbn [set_running emit process alive main_pc]. rewrite E.
  destruct m; cbn; rewrite E; cbn; auto 12.
Qed.

Lemma C7_witness :
  alive (signal_handler (session_child_gone MRead TSleep)) = alive (session_child_gone MRead TSleep) /\
  sigterm (signal_handler (session_child_gone MRead TSleep)) = sigterm (session_child_gone MRead TSleep) /\
  stdin_fault (signal_handler (session_child_gone MRead TSleep)) = stdin_fault (session_child_gone MRead TSleep) /\
  stdout (signal_handler (session_child_gone MRead TSleep)) = stdout (session_child_gone MRead TSleep) /\
  stdout_eof (signal_handler (session_child_gone MRead TSleep)) = stdout_eof (session_child_gone MRead TSleep) /\
  process (signal_handler (session_child_gone MRead TSleep)) = process (session_child_gone MRead TSleep) /\
  timer_pc (signal_handler (session_child_gone MRead TSleep)) = timer_pc (session_child_gone MRead TSleep) /\
  trace (signal_handler (session_child_gone MRead TSleep)) =
    (trace (session_child_gone MRead TSleep) ++ [EPrint msg_stopping])%list /\
  running (signal_handler (session_child_gone MRead TSleep)) = false /\
  (main_pc (signal_handler (session_child_gone MRead TSleep)) = MFinally true \/
   main_pc (signal_handler (session_child_gone MRead TSleep)) = MExit 0) /\
  signal_handler (signal_handler (session_child_gone MRead TSleep)) =
    goto_main (MExit 0)
      (emit [EPrint msg_stopping] (signal_handler (session_child_gone MRead TSleep))).
Proof.
  apply (C7_stop_on_stopped_session (session_child_gone MRead TSleep)). reflexivity.
Defined.

(** ** Writes and the [running] flag *)

Lemma write_attempts_app (a : actor) (x y : list event) :
  write_attempts a (x ++ y) =
  (write_attempts a x ++ write_attempts a y)%list.
Proof.
  induction x as [|[] x IH]; simpl; auto; destruct a, a0; simpl; congruence.
Qed.


(** Only [signal_handler] clears [running], and it takes the main thread
    out of the [try] block. *)
Lemma running_cleared_step (a : action) (s s' : state) :
  (running s = false -> leaving s = true) ->
  exec a s = Some s' ->
  running s' = false -> leaving s' = true.
Proof.
  intros Inv E.
  destruct s as [r p sf al st f o c m t tr].
  unfold leaving in *. cbn [running main_pc] in Inv.
  destruct a as [| | |e]; cbn in E.
  - destruct m; cbn in E;
      repeat match type of E with
      | context [match ?x with _ => _ end] => destruct x; cbn in E
      end;
      try discriminate; injection E as <-; cbn; intros Hr;
      try reflexivity; try (specialize (Inv Hr); discriminate).
  - unfold auto_respond_step in E. cbn in E.
    repeat match type of E with
      | context [match ?x with _ => _ end] => destruct x; cbn in E
      end;
      try discriminate; injection E as <-; cbn; auto.
  - unfold signal_step in E. cbn in E.
    destruct m; try discriminate; injection E as <-; reflexivity.
  - unfold env_step in E. cbn in E.
    repeat match type of E with
      | context [match ?x with _ => _ end] => destruct x; cbn in E
      end;
      try discriminate; injection E as <-; cbn; auto.
Qed.

Lemma running_cleared_run (sched : list action) (s s' : state) :
  (running s = false -> leaving s = true) ->
  run sched s = Some s' ->
  running s' = false -> leaving s' = true.
Proof.
  revert s; induction sched as [|a sched IH]; intros s Inv E; cbn in E.
  - injection E as <-. exact Inv.
  - destruct (exec a s) as [s1|] eqn:E1; [|discriminate].
    apply (IH s1); auto. now apply (running_cleared_step a s).
Qed.

Lemma running_cleared_reachable (s : state) :
  reachable s -> running s = false -> leaving s = true.
Proof.
  intros (e & sched & E).
  apply (running_cleared_run sched (init e)); [discriminate | exact E].
Qed.

(** The events of a step, read off the two traces. *)
Ltac give_events :=
  cbn;
  match goal with
  | |- exists evs, ?t = (?t ++ evs)%list /\ _ =>
      exists []; split; [symmetry; apply app_nil_r|]
  | |- exists evs, (?t ++ ?e)%list = (?t ++ evs)%list /\ _ =>
      exists e; split; [reflexivity|]
  | |- exists evs, ((?t ++ ?e1) ++ ?e2)%list = (?t ++ evs)%list /\ _ =>
      exists (e1 ++ e2)%list; split; [symmetry; apply app_assoc|]
  end.

(** Case analysis on everything a step function looks at. *)
Ltac step_cases E :=
  cbn in E;
  repeat match type of E with
    | context [match ?x with _ => _ end] =>
        lazymatch x with
        | context [match _ with _ => _ end] => fail
        | _ => destruct x; cbn in E
        end
    end;
  try discriminate; injection E as <-.

Lemma after_stop_step (a : action) (s s' : state) :
  running s = false -> leaving s = true ->
  exec a s = Some s' ->
  running s' = false /\ leaving s' = true /\
  exists evs,
    trace s' = (trace s ++ evs)%list /\
    write_attempts Scan evs = [] /\
    length (write_attempts Timer evs) + pending_rounds s' <=
      pending_rounds s /\
    (process_exited s = true -> evs = []).
Proof.
  intros Hr Hl E.
  destruct s as [r p sf al st f o c m t tr].
  unfold leaving in Hl. cbn in Hr, Hl. subst r.
  unfold leaving, pending_rounds, process_exited.
  destruct m; try discriminate; clear Hl;
    destruct a as [| | |e];
    unfold exec, start_claude_step, auto_respond_step, signal_step,
      signal_handler, env_step, terminate, send_response,
      process_exited in E;
    step_cases E;
    (split; [reflexivity|]); (split; [reflexivity|]);
    give_events; cbn; repeat split; auto; discriminate.
Qed.

Lemma after_stop_run (sched : list action) (s s' : state) :
  running s = false -> leaving s = true ->
  run sched s = Some s' ->
  exists evs,
    trace s' = (trace s ++ evs)%list /\
    write_attempts Scan evs = [] /\
    length (write_attempts Timer evs) <= pending_rounds s /\
    (process_exited s = true -> evs = []).
Proof.
  revert s; induction sched as [|a sched IH]; intros s Hr Hl E; cbn in E.
  - injection E as <-. exists []. rewrite app_nil_r. cbn.
    repeat split; auto. lia.
  - destruct (exec a s) as [s1|] eqn:E1; [|discriminate].
    destruct (after_stop_step a s s1 Hr Hl E1)
      as (Hr1 & Hl1 & evs1 & T1 & S1 & W1 & X1).
    destruct (IH s1 Hr1 Hl1 E) as (evs & T & S & W & X).
    exists (evs1 ++ evs)%list.
    rewrite T, T1, app_assoc, !write_attempts_app, S1, S, length_app.
    repeat split; auto; [lia|].
    intros Hx. rewrite (X1 Hx) in *. cbn. apply X.
    rewrite app_nil_r in T1.
    destruct s as [r p sf al st f o c m t tr], a as [| | |e];
      unfold process_exited in *; cbn in Hx; destruct m; try discriminate;
      unfold exec, start_claude_step, auto_respond_step, signal_step,
        env_step, process_exited in E1;
      step_cases E1; reflexivity.
Qed.

(** C3 as stated fails: SIGINT arrives after the responder thread has
    tested [running] and before it writes; its next two statements poll the
    child and write, and the write goes out although [running] is false and
    the session is stopping. *)
Lemma C3_counterexample :
  exists s s',
    run sched_stop_races_timer (init None) = Some s /\
    running s = false /\ session_state s = stopping /\
    run [ATimer; ATimer] s = Some s' /\
    trace s' = (trace s ++ [EWrite Timer RESPONSE; EFlush Timer])%list.
Proof.
  do 2 eexists. split; [vm_compute; reflexivity|].
  split; [reflexivity|]. split; [reflexivity|].
  split; [vm_compute; reflexivity|]. reflexivity.
Qed.

(** C3, amended. [running] is cleared by [signal_handler] alone, which
    takes the main thread out of its loop for good; from then on the
    monitor loop attempts no write.  The responder thread tests [running]
    only at the head of its loop: if the flag is cleared between that test
    and the write, that one write still goes out, and it is the last.  Once
    the controlling process has exited, nothing at all is written, printed
    or sent. *)
Theorem C3_writes_after_stop (sched : list action) (s s' : state) :
  reachable s -> running s = false ->
  run sched s = Some s' ->
  exists evs,
    trace s' = (trace s ++ evs)%list /\
    write_attempts Scan evs = [] /\
    length (write_attempts Timer evs) <=
      (match timer_pc s with TBody | TWrite => 1 | _ => 0 end) /\
    (process_exited s = true -> evs = []).
Proof.
  intros Hreach Hr E.
  apply (after_stop_run sched s s' Hr); auto.
  now apply running_cleared_reachable.
Qed.

Lemma C3_witness :
  exists evs,
    trace (after [ATimer; ATimer]
             (after sched_stop_races_timer (init None))) =
      (trace (after sched_stop_races_timer (init None)) ++ evs)%list /\
    write_attempts Scan evs = [] /\
    length (write_attempts Timer evs) <=
      (match timer_pc (after sched_stop_races_timer (init None)) with
       | TBody | TWrite => 1
       | _ => 0
       end) /\
    (process_exited (after sched_stop_races_timer (init None)) = true ->
     evs = []).
Proof.
  apply (C3_writes_after_stop [ATimer; ATimer]
           (after sched_stop_races_timer (init None))
           (after [ATimer; ATimer]
              (after sched_stop_races_timer (init None)))).
  - exists None, sched_stop_races_timer. vm_compute. reflexivity.
  - reflexivity.
  - vm_compute. reflexivity.
Defined.

(** ** The child exits on its own *)








(** * Further properties of the script *)

(** ** The prompt test (lines 70..76) *)

(** X1. The prompt test does not see the case of letters: two lines that
    differ only in case are answered alike. *)
Theorem X1_any_prompt_case_blind (x y : string) :
  same_ci x y -> any_prompt x = any_prompt y.
Proof.
  intros H. apply same_ci_lower in H. unfold any_prompt. now rewrite H.
Qed.

Lemma X1_witness :
  any_prompt "PRESS 1 NOW" = any_prompt "press 1 now".
Proof.
  apply (X1_any_prompt_case_blind "PRESS 1 NOW" "press 1 now").
  apply same_ci_lower. reflexivity.
Defined.

(** X2. The prompt test looks for substrings: text added before or after
    a line that is answered gives a line that is answered. *)
Theorem X2_any_prompt_extends (pre x post : string) :
  any_prompt x = true -> any_prompt (pre ++ x ++ post) = true.
Proof.
  intros H. apply any_prompt_spec in H as (p & Hp & a & m & b & -> & Hm).
  apply any_prompt_spec. exists p. split; auto.
  exists (pre ++ a), m, (b ++ post). split; auto.
  now rewrite !append_assoc.
Qed.

Lemma X2_witness :
  any_prompt ("[12:00] " ++ "Continue?" ++ " (y/n)") = true.
Proof.
  apply (X2_any_prompt_extends "[12:00] " "Continue?" " (y/n)").
  reflexivity.
Defined.

Lemma same_ci_length (x y : string) :
  same_ci x y -> String.length x = String.length y.
Proof. induction 1; simpl; auto. Qed.

Lemma length_append (a b : string) :
  String.length (a ++ b) = String.length a + String.length b.
Proof. induction a; simpl; auto. Qed.

(** X3. A line of fewer than two characters is never answered: the
    shortest prompt, ["1)"], has two. *)
Theorem X3_any_prompt_needs_two_chars (output : string) :
  any_prompt output = true -> 2 <= String.length output.
Proof.
  intros H. apply any_prompt_spec in H as (p & Hp & a & m & b & -> & Hm).
  apply same_ci_length in Hm. rewrite !length_append, Hm.
  assert (2 <= String.length p); [|lia].
  unfold prompts in Hp; simpl in Hp.
  destruct Hp as [<-|[<-|[<-|[<-|[<-|[]]]]]]; simpl; lia.
Qed.

Lemma X3_witness : 2 <= String.length "1)".
Proof.
  apply (X3_any_prompt_needs_two_chars "1)"). reflexivity.
Defined.

(** ** The body of the monitor loop (lines 66..79) *)


(** ** Invariants of every run *)

Lemma run_invariant (P : state -> Prop) :
  (forall a s s', P s -> exec a s = Some s' -> P s') ->
  forall sched s s', P s -> run sched s = Some s' -> P s'.
Proof.
  intros Hstep sched; induction sched as [|a sched IH]; intros s s' H E;
    cbn in E.
  - now injection E as <-.
  - destruct (exec a s) as [s1|] eqn:E1; [|discriminate]. eauto.
Qed.

Lemma reachable_invariant (P : state -> Prop) :
  (forall e, P (init e)) ->
  (forall a s s', P s -> exec a s = Some s' -> P s') ->
  forall s, reachable s -> P s.
Proof.
  intros H0 Hstep s (e & sched & E).
  exact (run_invariant P Hstep sched (init e) s (H0 e) E).
Qed.

Lemma attempts_app (x y : list event) :
  attempts (x ++ y) = (attempts x ++ attempts y)%list.
Proof.
  induction x as [|[] x IH]; simpl; auto; congruence.
Qed.

(** Unfolds one step of the system on a state given field by field. *)
Ltac unfold_step E :=
  unfold exec, start_claude_step, auto_respond_step, signal_step,
    signal_handler, env_step, handle_output, terminate, send_response,
    process_exited in E;
  step_cases E.

(** X8. Whatever the child prints and however the threads interleave,
    nothing but ["1\n"] is ever handed to the child's input. *)
Theorem X8_only_response_is_written (s : state) :
  reachable s -> Forall (fun x => x = RESPONSE) (attempts (trace s)).
Proof.
  apply (reachable_invariant
           (fun s => Forall (fun x => x = RESPONSE) (attempts (trace s)))).
  - intros e. constructor.
  - clear s. intros a s s1 H E.
    destruct s as [r p sf al st f o c m t tr]. cbn in H.
    destruct a as [| | |ea], m; unfold_step E; cbn;
      rewrite <- ?app_assoc, ?attempts_app; try exact H;
      apply Forall_app; split; auto; cbn; repeat constructor.
Qed.

Lemma X8_witness :
  Forall (fun x => x = RESPONSE)
    (attempts (trace (after sched_scan_write_fails (init None)))).
Proof.
  apply (X8_only_response_is_written
           (after sched_scan_write_fails (init None))).
  exists None, sched_scan_write_fails. vm_compute. reflexivity.
Defined.




Lemma sigterm_needs_process (s : state) :
  reachable s -> process s = false -> sigterm s = false.
Proof.
  apply (reachable_invariant
           (fun s => process s = false -> sigterm s = false)); clear s.
  - reflexivity.
  - intros a s s1 H E.
    destruct s as [r p sf al st f o c m t tr]. cbn in H.
    destruct p, a as [| | |ea], m; unfold_step E; cbn;
      try discriminate; auto.
Qed.

Lemma live_child_sigterm (s : state) :
  reachable s ->
  process_exited s = true -> process s = true -> alive s = true ->
  sigterm s = true.
Proof.
  intros H.
  cut ((main_pc s = MStart -> process s = false) /\
       (process_exited s = true -> process s = true ->
        alive s = true -> sigterm s = true)); [tauto|].
  revert s H.
  apply (reachable_invariant
           (fun s => (main_pc s = MStart -> process s = false) /\
                     (process_exited s = true -> process s = true ->
                      alive s = true -> sigterm s = true))).
  - intros e. split; [reflexivity | discriminate].
  - intros a s s1 [H0 H] E.
    destruct s as [r p sf al st f o c m t tr].
    unfold process_exited in *. cbn in H0, H.
    destruct p, al, a as [| | |ea], m; unfold_step E; cbn;
      split; try discriminate; auto;
      specialize (H0 eq_refl); discriminate.
Qed.

(** X10. When the controlling process has exited and the child is still
    alive, SIGTERM has been sent to the child exactly if [self.process] had
    been assigned.  The [finally] clause and the handler both test
    [self.process]: an interrupt handled after [Popen] has forked the child
    and before line 49 has stored it leaves the child running, never
    signalled. *)
Theorem X10_sigterm_iff_process_assigned (s : state) :
  reachable s ->
  process_exited s = true -> alive s = true ->
  sigterm s = process s.
Proof.
  intros H Hx Ha. destruct (process s) eqn:Hp.
  - now apply live_child_sigterm.
  - now apply sigterm_needs_process.
Qed.

Lemma X10_witness :
  sigterm (after [AMain; AMain; ASignal; AMain] (init None)) =
  process (after [AMain; AMain; ASignal; AMain] (init None)).
Proof.
  apply (X10_sigterm_iff_process_assigned
           (after [AMain; AMain; ASignal; AMain] (init None))).
  - exists None, [AMain; AMain; ASignal; AMain]. vm_compute. reflexivity.
  - reflexivity.
  - reflexivity.
Defined.

Lemma not_in_app (e : event) (x y : list event) :
  ~ In e x -> ~ In e y -> ~ In e (x ++ y).
Proof. intros Hx Hy H. apply in_app_or in H as [H|H]; auto. Qed.

Lemma no_child_invariant (s : state) :
  reachable s -> process s = false ->
  no_child_pc s = true /\ timer_pc s = TIdle /\
  attempts (trace s) = [] /\ ~ In ETerminate (trace s).
Proof.
  apply (reachable_invariant
           (fun s => process s = false ->
                     no_child_pc s = true /\ timer_pc s = TIdle /\
                     attempts (trace s) = [] /\ ~ In ETerminate (trace s)));
    clear s.
  - intros e _. cbn. auto.
  - intros a s s1 H E.
    destruct s as [r p sf al st f o c m t tr].
    unfold no_child_pc in *. cbn in H.
    destruct p;
      [ destruct a as [| | |ea], m; unfold_step E; cbn; discriminate |].
    destruct (H eq_refl) as (Hm & -> & Hw & Hn).
    destruct a as [| | |ea], m; try discriminate; unfold_step E; cbn;
      try discriminate; intros _;
      rewrite ?attempts_app, ?Hw;
      repeat split; auto;
      repeat apply not_in_app; auto; cbn; intuition discriminate.
Qed.

(** X11. As long as [self.process] is [None] (before the launch, or for
    good when the launch fails) the responder thread is not started,
    nothing is handed to a child's input and no signal is sent. *)
Theorem X11_no_child_no_action (s : state) :
  reachable s -> process s = false ->
  timer_pc s = TIdle /\ attempts (trace s) = [] /\ ~ In ETerminate (trace s).
Proof.
  intros H Hp. now destruct (no_child_invariant s H Hp) as (_ & Ht & Hw & Hn).
Qed.

Lemma X11_witness :
  timer_pc (after [AMain; AMain; ASignal; AMain] (init (Some enoent))) =
    TIdle /\
  attempts (trace (after [AMain; AMain; ASignal; AMain]
                     (init (Some enoent)))) = [] /\
  ~ In ETerminate (trace (after [AMain; AMain; ASignal; AMain]
                            (init (Some enoent)))).
Proof.
  apply (X11_no_child_no_action
           (after [AMain; AMain; ASignal; AMain] (init (Some enoent)))).
  - exists (Some enoent), [AMain; AMain; ASignal; AMain].
    vm_compute. reflexivity.
  - reflexivity.
Defined.

Lemma running_cleared_banner (s : state) :
  reachable s -> running s = false -> In msg_stopping (printed (trace s)).
Proof.
  apply (reachable_invariant
           (fun s => running s = false ->
                     In msg_stopping (printed (trace s)))); clear s.
  - intros e H. discriminate.
  - intros a s s1 H E.
    destruct s as [r p sf al st f o c m t tr]. cbn [running trace] in H.
    destruct a as [| | |ea], m; unfold_step E;
      cbn [running trace goto_main goto_timer emit set_child set_running
           spawned];
      intros Hr; rewrite ?printed_app, ?in_app_iff; cbn [printed In];
      try discriminate; tauto.
Qed.

(** X12. [running] is cleared by the interrupt handler and by nothing
    else: whenever it is false, the stopping banner has been printed and
    the main thread has left its [try] block for good. *)
Theorem X12_running_cleared_by_handler_only (s : state) :
  reachable s -> running s = false ->
  In msg_stopping (printed (trace s)) /\ leaving s = true.
Proof.
  intros H Hr. split.
  - now apply running_cleared_banner.
  - now apply running_cleared_reachable.
Qed.

Lemma X12_witness :
  In msg_stopping
    (printed (trace (after sched_stop_races_timer (init None)))) /\
  leaving (after sched_stop_races_timer (init None)) = true.
Proof.
  apply (X12_running_cleared_by_handler_only
           (after sched_stop_races_timer (init None))).
  - exists None, sched_stop_races_timer. vm_compute. reflexivity.
  - reflexivity.
Defined.

(** ** The interrupt handler, from any point of the session *)



(** ** The responder thread, as a whole *)

(** X7. No statement of the responder thread prints, sends a signal,
    reads the child's output or touches [running], [self.process] or the
    main thread: all it adds to the world are writes of the response and
    sleeps. *)
Theorem X7_responder_frame (s s' : state) :
  exec ATimer s = Some s' ->
  running s' = running s /\ process s' = process s /\
  alive s' = alive s /\ sigterm s' = sigterm s /\
  stdin_fault s' = stdin_fault s /\
  stdout s' = stdout s /\ stdout_eof s' = stdout_eof s /\
  main_pc s' = main_pc s /\
  exists evs,
    trace s' = (trace s ++ evs)%list /\
    printed evs = [] /\ ~ In ETerminate evs /\
    write_attempts Scan evs = [].
Proof.
  intros E.
  destruct s as [r p sf al st f o c m t tr].
  unfold exec, auto_respond_step, send_response, process_exited in E.
  step_cases E; cbn; repeat (split; [reflexivity|]);
    give_events; cbn; repeat split; auto; intuition discriminate.
Qed.

Lemma X7_witness :
  running (after [ATimer] (session MRead TBody)) =
    running (session MRead TBody) /\
  process (after [ATimer] (session MRead TBody)) =
    process (session MRead TBody) /\
  alive (after [ATimer] (session MRead TBody)) =
    alive (session MRead TBody) /\
  sigterm (after [ATimer] (session MRead TBody)) =
    sigterm (session MRead TBody) /\
  stdin_fault (after [ATimer] (session MRead TBody)) =
    stdin_fault (session MRead TBody) /\
  stdout (after [ATimer] (session MRead TBody)) =
    stdout (session MRead TBody) /\
  stdout_eof (after [ATimer] (session MRead TBody)) =
    stdout_eof (session MRead TBody) /\
  main_pc (after [ATimer] (session MRead TBody)) =
    main_pc (session MRead TBody) /\
  exists evs,
    trace (after [ATimer] (session MRead TBody)) =
      (trace (session MRead TBody) ++ evs)%list /\
    printed evs = [] /\ ~ In ETerminate evs /\
    write_attempts Scan evs = [].
Proof.
  apply (X7_responder_frame (session MRead TBody)
           (after [ATimer] (session MRead TBody))).
  reflexivity.
Defined.

Lemma run_app (x y : list action) (s : state) :
  run (x ++ y) s =
  match run x s with Some s1 => run y s1 | None => None end.
Proof.
  revert s; induction x as [|a x IH]; intros s; cbn; auto.
  destruct (exec a s); auto.
Qed.

Lemma responder_round (r p : bool) (sf : option string) (st : bool)
    (o : list chunk) (c : bool) (m : main_loc) (tr : list event) :
  match m with MExit _ => false | _ => true end = true ->
  run [ATimer; ATimer; ATimer; ATimer]
    (mkState true true sf true st None o c m TLoop tr) =
  Some (mkState true true sf true st None o c m TLoop
          (tr ++ [EWrite Timer RESPONSE; EFlush Timer; ESleep 2])).
Proof.
  intros Hm. destruct m; try discriminate; cbv -[app RESPONSE];
    now rewrite <- app_assoc.
Qed.

(** X6. As long as [running] holds, the child is alive and its input can
    be written, [n] rounds of the responder loop left to themselves send
    exactly [n] responses, each followed by a flush and a sleep of 2
    seconds, and leave the thread at its loop test with nothing else
    changed. *)
Theorem X6_responder_rounds (n : nat) (s : state) :
  process_exited s = false -> timer_pc s = TLoop ->
  running s = true -> process s = true -> alive s = true ->
  stdin_fault s = None ->
  run (rounds n) s = Some (goto_timer TLoop (emit (round_events n) s)) /\
  attempts (round_events n) = repeat RESPONSE n.
Proof.
  intros Hx Ht Hr Hp Ha Hf. split.
  - destruct s as [r p sf al st f o c m t tr].
    unfold process_exited in Hx. cbn in Hx, Ht, Hr, Hp, Ha, Hf. subst.
    unfold goto_timer, emit; cbn [running process spawn_fault alive sigterm
      stdin_fault stdout stdout_eof main_pc timer_pc trace].
    revert tr; induction n as [|n IH]; intros tr.
    + cbn. now rewrite app_nil_r.
    + change (rounds (S n))
        with ([ATimer; ATimer; ATimer; ATimer] ++ rounds n)%list.
      rewrite run_app, responder_round
        by (destruct m; auto; discriminate).
      rewrite IH. cbn [round_events]. now rewrite <- app_assoc.
  - induction n as [|n IH]; [reflexivity|].
    cbn [round_events attempts repeat]. now rewrite IH.
Qed.

Lemma X6_witness :
  run (rounds 3) (session MRead TLoop) =
    Some (goto_timer TLoop (emit (round_events 3) (session MRead TLoop))) /\
  attempts (round_events 3) = repeat RESPONSE 3.
Proof.
  apply (X6_responder_rounds 3 (session MRead TLoop)); reflexivity.
Defined.

(** ** The monitor loop, as a whole *)

Lemma handle_output_writable (l : string) :
  snd (handle_output None l) = None.
Proof.
  unfold handle_output. destruct (truthy l), (any_prompt l); reflexivity.
Qed.

Lemma monitor_turn (p : bool) (sf : option string) (st : bool)
    (l : string) (rest : list chunk) (c : bool) (t : timer_loc)
    (tr : list event) :
  run [AMain; AMain; AMain]
    (mkState true p sf true st None (Line l :: rest) c MLoop t tr) =
  Some (mkState true p sf true st None rest c MLoop t
          (tr ++ fst (handle_output None l))).
Proof.
  cbn -[handle_output].
  pose proof (handle_output_writable l) as H.
  destruct (handle_output None l) as [evs x]. cbn in H. subst x.
  reflexivity.
Qed.

Lemma monitor_turns (ls : list string) (rest : list chunk) (s : state) :
  main_pc s = MLoop -> running s = true -> alive s = true ->
  stdin_fault s = None ->
  stdout s = (map Line ls ++ rest)%list ->
  run (turns (length ls)) s =
  Some (set_child (alive s) (sigterm s) (stdin_fault s) rest (stdout_eof s)
          (emit (line_events ls) s)).
Proof.
  intros Hm Hr Ha Hf Ho.
  destruct s as [r p sf al st f o c m t tr].
  cbn in Hm, Hr, Ha, Hf, Ho. subst.
  unfold set_child, emit; cbn [running process spawn_fault alive sigterm
    stdin_fault stdout stdout_eof main_pc timer_pc trace].
  revert tr; induction ls as [|l ls IH]; intros tr.
  - cbn. now rewrite app_nil_r.
  - change (turns (length (l :: ls)))
      with ([AMain; AMain; AMain] ++ turns (length ls))%list.
    rewrite run_app. cbn [map app]. rewrite monitor_turn, IH.
    cbn [line_events]. now rewrite <- app_assoc.
Qed.

Lemma line_events_owed (ls : list string) : loop_output ls (line_events ls).
Proof.
  induction ls as [|l ls IH]; cbn [line_events]; [constructor|].
  unfold handle_output. destruct l as [|c l]; [now constructor|].
  simpl truthy. cbv iota.
  destruct (any_prompt (String c l)) eqn:E; cbn.
  - apply loop_output_prompt; auto; [discriminate|].
    now apply any_prompt_spec.
  - apply loop_output_plain; auto; [discriminate|].
    intros H. apply any_prompt_spec in H. congruence.
Qed.

(** X5. While [running] holds, the child is alive and its input can be
    written, the monitor loop left to itself takes the lines waiting in the
    pipe in the order the child printed them, one per turn: each non-empty
    line is echoed, each that holds a trigger is then announced and
    answered by exactly one write of the response and a flush, and what
    follows the lines stays in the pipe. *)
Theorem X5_monitor_loop_takes_lines_in_order
    (ls : list string) (rest : list chunk) (s : state) :
  main_pc s = MLoop -> running s = true -> alive s = true ->
  stdin_fault s = None ->
  stdout s = (map Line ls ++ rest)%list ->
  exists evs,
    run (turns (length ls)) s =
    Some (set_child (alive s) (sigterm s) (stdin_fault s) rest
            (stdout_eof s) (emit evs s)) /\
    loop_output ls evs.
Proof.
  intros Hm Hr Ha Hf Ho. exists (line_events ls). split.
  - now apply monitor_turns.
  - apply line_events_owed.
Qed.

Lemma X5_witness :
  exists evs,
    run (turns (length ["booting" ++ newline; sample_prompt]))
      (after [AEnv (ChildPrints ("booting" ++ newline));
              AEnv (ChildPrints sample_prompt)] (session MLoop TSleep)) =
    Some (set_child
            (alive (after [AEnv (ChildPrints ("booting" ++ newline));
                           AEnv (ChildPrints sample_prompt)]
                      (session MLoop TSleep)))
            (sigterm (after [AEnv (ChildPrints ("booting" ++ newline));
                             AEnv (ChildPrints sample_prompt)]
                        (session MLoop TSleep)))
            (stdin_fault (after [AEnv (ChildPrints ("booting" ++ newline));
                                 AEnv (ChildPrints sample_prompt)]
                            (session MLoop TSleep)))
            []
            (stdout_eof (after [AEnv (ChildPrints ("booting" ++ newline));
                                AEnv (ChildPrints sample_prompt)]
                           (session MLoop TSleep)))
            (emit evs
               (after [AEnv (ChildPrints ("booting" ++ newline));
                       AEnv (ChildPrints sample_prompt)]
                  (session MLoop TSleep)))) /\
    loop_output ["booting" ++ newline; sample_prompt] evs.
Proof.
  apply (X5_monitor_loop_takes_lines_in_order
           ["booting" ++ newline; sample_prompt] []
           (after [AEnv (ChildPrints ("booting" ++ newline));
                   AEnv (ChildPrints sample_prompt)]
              (session MLoop TSleep)));
    reflexivity.
Defined.

(** ** A child that exits with nothing left to read *)

Lemma quiet_step (a : action) (s s' : state) :
  quiet s = true -> a <> ASignal ->
  exec a s = Some s' ->
  quiet s' = true /\
  exists evs,
    trace s' = (trace s ++ evs)%list /\
    Forall (fun e => e = ESleep 2) evs.
Proof.
  intros Hq Ha E.
  destruct s as [r p sf al st f o c m t tr].
  unfold quiet in Hq. cbn in Hq.
  destruct al, c, f as [e|], r, o as [|x o]; try discriminate.
  unfold quiet.
  destruct p, t; try discriminate;
    destruct m as [| | | | | |output| | |]; try discriminate;
    try (destruct output; [|discriminate]); clear Hq;
    destruct a as [| | |ea]; try congruence; clear Ha;
    unfold_step E; (split; [reflexivity|]);
    give_events; repeat constructor.
Qed.

(** X14. When the child has exited, nothing of its output is left to read
    and the responder thread is not between its poll (line 30) and its
    write (line 32), the session winds down in silence as long as nobody
    interrupts: whatever the interleaving, neither activity attempts a
    write, nothing is printed and no signal is sent; the responder thread
    only sleeps.  This holds from the assignment of line 49 on, so also for
    a child that exits as soon as it is launched. *)
Theorem X14_quiet_exit (sched : list action) (s s' : state) :
  quiet s = true -> ~ In ASignal sched ->
  run sched s = Some s' ->
  quiet s' = true /\
  exists evs,
    trace s' = (trace s ++ evs)%list /\
    Forall (fun e => e = ESleep 2) evs.
Proof.
  revert s; induction sched as [|a sched IH]; intros s Hq Hn E; cbn in E.
  - injection E as <-. split; auto. exists []. now rewrite app_nil_r.
  - destruct (exec a s) as [s1|] eqn:E1; [|discriminate].
    assert (Ha : a <> ASignal) by (intros ->; apply Hn; now left).
    assert (Hn' : ~ In ASignal sched) by (intros H; apply Hn; now right).
    destruct (quiet_step a s s1 Hq Ha E1) as (Hq1 & evs1 & T1 & F1).
    destruct (IH s1 Hq1 Hn' E) as (Hq' & evs & T & F).
    split; auto. exists (evs1 ++ evs)%list.
    rewrite T, T1, app_assoc. split; auto. now apply Forall_app.
Qed.

Lemma X14_witness :
  quiet (after [AMain; AMain; ATimer; AMain; ATimer; ATimer; ATimer; AMain]
           (after [AMain; AMain; AEnv ChildExits] (init None))) = true /\
  exists evs,
    trace (after [AMain; AMain; ATimer; AMain; ATimer; ATimer; ATimer; AMain]
             (after [AMain; AMain; AEnv ChildExits] (init None))) =
      (trace (after [AMain; AMain; AEnv ChildExits] (init None)) ++
       evs)%list /\
    Forall (fun e => e = ESleep 2) evs.
Proof.
  apply (X14_quiet_exit
           [AMain; AMain; ATimer; AMain; ATimer; ATimer; ATimer; AMain]
           (after [AMain; AMain; AEnv ChildExits] (init None))
           (after
              [AMain; AMain; ATimer; AMain; ATimer; ATimer; ATimer; AMain]
              (after [AMain; AMain; AEnv ChildExits] (init None)))).
  - reflexivity.
  - cbn. intuition discriminate.
  - vm_compute. reflexivity.
Defined.
